(** * hum.gen.sine_mix: sine waveforms and stationary mixes

    A shallow embedding of [src/hum/gen/sine_mix.py] and the properties of
    its two functions, [mk_sine_wf] and [freq_based_stationary_wf].

    The source computes on Python ints and IEEE-754 doubles (numpy float64).
    The file reads it twice.

    The exact reading (the definitions at top level).  A number is an exact
    real, or one of the non-finite values (an infinity with its sign, or
    NaN) that numpy produces when an array is divided by zero; Python ints
    are the reals they denote; arrays have any length.  There is no
    rounding and no overflow: this is the arithmetic the formulas of the
    specification are written in, and the statements proved on it say so.
    Signed zeros are not modelled; the only zero divisor the source can
    produce, [sum(weights)], is never the negative zero because the builtin
    [sum] starts from the int 0.

    The float64 reading (module [F64]).  Python ints of any size, doubles
    with their rounding and overflow, 64-bit array lengths, and the
    exceptions these bring.  It is where a statement about what the code
    returns on every input is decided.

    In both readings numpy's error state is the default one (floating-point
    exceptions warn, they do not raise). *)

From Stdlib Require Import Reals Lra Lia List ZArith Bool.
From Stdlib Require Import Permutation.
From Stdlib Require Floats.
Import Floats.SpecFloat Floats.FloatOps.
Import ListNotations.

Open Scope R_scope.

(** ** Numbers of the exact reading *)

Inductive num : Type :=
| Fin (r : R)          (* a finite value *)
| Inf (neg : bool)     (* +inf when [neg = false], -inf when [neg = true] *)
| NaN.

Definition Rzerob (r : R) : bool := if Req_dec_T r 0 then true else false.
Definition Rnegb (r : R) : bool := if Rlt_dec r 0 then true else false.

Definition num_add (x y : num) : num :=
  match x, y with
  | Fin a, Fin b => Fin (a + b)
  | Fin _, Inf s => Inf s
  | Inf s, Fin _ => Inf s
  | Inf s, Inf t => if Bool.eqb s t then Inf s else NaN
  | _, _ => NaN
  end.

Definition num_mul (x y : num) : num :=
  match x, y with
  | Fin a, Fin b => Fin (a * b)
  | Fin a, Inf s => if Rzerob a then NaN else Inf (xorb (Rnegb a) s)
  | Inf s, Fin b => if Rzerob b then NaN else Inf (xorb s (Rnegb b))
  | Inf s, Inf t => Inf (xorb s t)
  | _, _ => NaN
  end.

(** Array division as numpy does it: a zero divisor gives a non-finite
    quotient, never an exception. *)
Definition num_div (x y : num) : num :=
  match x, y with
  | Fin a, Fin b =>
      if Rzerob b then (if Rzerob a then NaN else Inf (Rnegb a))
      else Fin (a / b)
  | Fin _, Inf _ => Fin 0
  | Inf s, Fin b => Inf (xorb s (Rnegb b))
  | _, _ => NaN
  end.

Definition num_sin (x : num) : num :=
  match x with
  | Fin a => Fin (sin a)
  | _ => NaN
  end.

Definition of_int (z : Z) : num := Fin (IZR z).

(** [numpy.pi] *)
Definition pi : num := Fin PI.

(** ** Exceptions *)

Inductive exn : Type :=
| AssertionError
| ZeroDivisionError
| IndexError
| ValueError.

Inductive result (A : Type) : Type :=
| Ok (a : A)
| Raise (e : exn).
Arguments Ok {A} a.
Arguments Raise {A} e.

Definition bind {A B : Type} (m : result A) (k : A -> result B) : result B :=
  match m with
  | Ok a => k a
  | Raise e => Raise e
  end.

Notation "x <- m ;; k" := (bind m (fun x => k))
  (at level 61, m at next level, right associativity).


(** ** Arrays *)

(** A one-dimensional [numpy.ndarray] of numbers. *)
Definition ndarray : Type := list num.

(** A Python value of the kind the source passes around: a scalar or an
    array. *)
Inductive value : Type :=
| Scalar (x : num)
| Array (a : ndarray).

(** [numpy.arange(n)]: the integers [0, 1, ..., n-1]; empty when [n <= 0].
    In the exact reading an array has any length; [F64.arange] has the
    limits of numpy's 64-bit lengths. *)
Definition arange (n : Z) : ndarray :=
  map (fun k => Fin (INR k)) (seq 0 (Z.to_nat n)).

(** [numpy.ones(n)] *)
Definition ones (n : nat) : ndarray := repeat (Fin 1) n.

(** array (op) scalar and scalar (op) array, element by element *)
Definition arr_mul_s (a : ndarray) (x : num) : ndarray :=
  map (fun y => num_mul y x) a.
Definition arr_div_s (a : ndarray) (x : num) : ndarray :=
  map (fun y => num_div y x) a.
Definition s_add_arr (x : num) (a : ndarray) : ndarray :=
  map (fun y => num_add x y) a.
Definition s_mul_arr (x : num) (a : ndarray) : ndarray :=
  map (fun y => num_mul x y) a.
Definition np_sin (a : ndarray) : ndarray := map num_sin a.

Fixpoint zip_with (f : num -> num -> num) (a b : ndarray) : ndarray :=
  match a, b with
  | x :: a', y :: b' => f x y :: zip_with f a' b'
  | _, _ => []
  end.

(** array + array under numpy's broadcasting rule for one dimension: equal
    lengths add element by element, a length-one operand is stretched, any
    other pair of shapes is a [ValueError]. *)
Definition arr_add (a b : ndarray) : result ndarray :=
  if Nat.eqb (length a) (length b) then Ok (zip_with num_add a b)
  else match a, b with
       | [x], _ => Ok (s_add_arr x b)
       | _, [y] => Ok (map (fun x => num_add x y) a)
       | _, _ => Raise ValueError
       end.

(** [v + a] for an accumulator [v] and an array [a] *)
Definition value_add (v : value) (a : ndarray) : result value :=
  match v with
  | Scalar x => Ok (Array (s_add_arr x a))
  | Array b => c <- arr_add b a ;; Ok (Array c)
  end.

(** [v / s] for a scalar [s]: on a Python scalar a zero divisor raises
    [ZeroDivisionError]; on an array the division is numpy's.  In the exact
    reading every number divides an array; [F64.value_div] raises
    [OverflowError] on an int beyond the doubles. *)
Definition value_div (v : value) (s : num) : result value :=
  match v with
  | Scalar x =>
      match s with
      | Fin b => if Rzerob b then Raise ZeroDivisionError
                 else Ok (Scalar (num_div x s))
      | _ => Ok (Scalar (num_div x s))
      end
  | Array a => Ok (Array (arr_div_s a s))
  end.

(** [weights[i]] *)
Definition getitem (l : list num) (i : nat) : result num :=
  match nth_error l i with
  | Some x => Ok x
  | None => Raise IndexError
  end.

(** The builtin [sum] over a sequence of numbers, from the int 0.  In the
    exact reading the sum is the exact one; [F64.py_sum] rounds after each
    addition of doubles, as the code does. *)
Definition py_sum (l : list num) : num := fold_left num_add l (Fin 0).

(** [enumerate(l)] *)
Definition enumerate {A : Type} (l : list A) : list (nat * A) :=
  combine (seq 0 (length l)) l.

(** ** The module *)

Definition DFLT_N_SAMPLES : Z := 21 * 2048.
Definition DFLT_SR : Z := 44100.

Definition dflt_phase : num := of_int 0.
Definition dflt_gain : num := of_int 1.

(** [gain * sin(phase + arange(n_samples) * 2 * pi * freq / sr)] *)
Definition mk_sine_wf (freq : num) (n_samples : Z) (sr phase gain : num)
  : ndarray :=
  s_mul_arr gain
    (np_sin
       (s_add_arr phase
          (arr_div_s
             (arr_mul_s (arr_mul_s (arr_mul_s (arange n_samples) (of_int 2)) pi)
                        freq)
             sr))).

(** [sum(g(freq) * weights[i] for i, freq in enumerate(freqs))]: the builtin
    [sum] drives the generator, one item per step, adding it to the
    accumulator. *)
Fixpoint sum_weighted (g : num -> ndarray) (weights : list num)
    (items : list (nat * num)) (acc : value) : result value :=
  match items with
  | [] => Ok acc
  | (i, freq) :: rest =>
      w <- getitem weights i ;;
      acc' <- value_add acc (arr_mul_s (g freq) w) ;;
      sum_weighted g weights rest acc'
  end.

Definition freq_based_stationary_wf (freqs : list num)
    (weights : option (list num)) (n_samples : Z) (sr : num) : result value :=
  let weights :=
    match weights with
    | None => ones (length freqs)
    | Some ws => ws
    end in
  if negb (Nat.eqb (length freqs) (length weights)) then Raise AssertionError
  else
    let _mk_sine_wf := fun freq =>
      mk_sine_wf freq n_samples sr dflt_phase dflt_gain in
    wf <- sum_weighted _mk_sine_wf weights (enumerate freqs) (Scalar (of_int 0)) ;;
    value_div wf (py_sum weights).

(** ** The mix as the specification words it

    One weighted waveform per frequency, their element-wise sum, and the
    division of every sample by the total weight.  Nothing here mentions
    indices, accumulators, broadcasting or exceptions. *)

Module Spec.

Definition wf_scale (w : num) (wf : ndarray) : ndarray :=
  map (fun x => num_mul x w) wf.

Definition wf_add (a b : ndarray) : ndarray := zip_with num_add a b.

Definition silence (len : nat) : ndarray := repeat (Fin 0) len.

Definition wf_sum (len : nat) (wfs : list ndarray) : ndarray :=
  fold_right wf_add (silence len) wfs.

Definition total (ws : list num) : num := fold_right num_add (Fin 0) ws.

Definition sines (freqs : list num) (n : Z) (sr : num) : list ndarray :=
  map (fun f => mk_sine_wf f n sr (Fin 0) (Fin 1)) freqs.

Fixpoint weighted (wfs : list ndarray) (ws : list num) : list ndarray :=
  match wfs, ws with
  | wf :: wfs', w :: ws' => wf_scale w wf :: weighted wfs' ws'
  | _, _ => []
  end.

Definition generateMix (freqs ws : list num) (n : Z) (sr : num) : ndarray :=
  map (fun x => num_div x (total ws))
      (wf_sum (Z.to_nat n) (weighted (sines freqs n sr) ws)).

(** The element-wise arithmetic mean of a list of waveforms of length [len]. *)
Definition mean (len : nat) (wfs : list ndarray) : ndarray :=
  map (fun x => num_div x (Fin (INR (length wfs)))) (wf_sum len wfs).

End Spec.

(** The sum of a list of reals. *)
Definition Rsum (l : list R) : R := fold_right Rplus 0 l.

(** The mix in closed form, on real inputs: at sample [i], the sum over the
    frequencies of [sin(i * 2 pi * freq / sr) * weight], and its quotient by
    the total weight. *)
Fixpoint mix_numerator (freqs ws : list R) (sr : R) (i : nat) : R :=
  match freqs, ws with
  | f :: freqs', w :: ws' =>
      sin (INR i * (2 * PI) * f / sr) * w + mix_numerator freqs' ws' sr i
  | _, _ => 0
  end.

Definition mix_sample (freqs ws : list R) (sr : R) (i : nat) : R :=
  mix_numerator freqs ws sr i / Rsum ws.

(** A finite number of magnitude at most [b]. *)
Definition within (b : R) (x : num) : Prop :=
  exists r : R, x = Fin r /\ Rabs r <= b.

(** ** The float64 reading

    The same two functions on the numbers Python and numpy really compute
    with: Python ints of any size, IEEE-754 binary64 floats with their
    rounding, overflow to an infinity and NaN, and 64-bit array lengths.
    Two things lie outside the source and are taken from the platform: the
    sine of a finite double, which numpy leaves to its own routine, and the
    longest array the machine can hold.  Warnings are not modelled (numpy's
    default error state turns a floating-point exception into a warning). *)

Module F64.

Import PrimFloat.

(** A Python number: an int of any size or a float. *)
Inductive pynum : Type :=
| PyInt (z : Z)
| PyFloat (f : float).

Inductive exn : Type :=
| AssertionError
| ZeroDivisionError
| IndexError
| ValueError
| OverflowError
| MemoryError.

Inductive result (A : Type) : Type :=
| Ok (a : A)
| Raise (e : exn).
Arguments Ok {A} a.
Arguments Raise {A} e.

Definition bind {A B : Type} (m : result A) (k : A -> result B) : result B :=
  match m with
  | Ok a => k a
  | Raise e => Raise e
  end.

Declare Scope f64_scope.
Notation "x <- m ;; k" := (bind m (fun x => k))
  (at level 61, m at next level, right associativity) : f64_scope.
Local Open Scope f64_scope.

Record platform : Type := {
  libm_sin : float -> float;   (* the sine of a finite double *)
  max_len : Z                  (* the longest array that can be allocated *)
}.

(** The double nearest to an integer (ties to even); an infinity when the
    integer is beyond the range of the doubles. *)
Definition Z2float (z : Z) : float :=
  SF2Prim (binary_normalize prec emax z 0 false).

Definition float_of (x : pynum) : float :=
  match x with
  | PyInt z => Z2float z
  | PyFloat f => f
  end.

(** Whether a Python number converts to a double: every float does, an int
    does unless it rounds to an infinity. *)
Definition fits (x : pynum) : bool :=
  match x with
  | PyInt z => negb (is_infinity (Z2float z))
  | PyFloat _ => true
  end.

(** The conversion a Python scalar undergoes when it meets a float64 array. *)
Definition to_float (x : pynum) : result float :=
  if fits x then Ok (float_of x) else Raise OverflowError.

(** The real number a double stands for; none for an infinity or a NaN. *)
Definition to_R (x : float) : option R :=
  match Prim2SF x with
  | S754_zero _ => Some 0%R
  | S754_finite s m e => Some (IZR (cond_Zopp s (Zpos m)) * powerRZ 2 e)%R
  | S754_infinity _ | S754_nan => None
  end.

(** [numpy.pi] *)
Definition pi : float := 0x1.921fb54442d18p+1%float.

(** An int64 after an arithmetic operation: the result wraps around. *)
Definition wrap64 (z : Z) : Z := ((z + 2 ^ 63) mod 2 ^ 64 - 2 ^ 63)%Z.

(** [numpy.sin] on a double: NaN on an infinity or a NaN, the platform's
    routine on a finite double. *)
Definition np_sin (P : platform) (x : float) : float :=
  if is_finite x then libm_sin P x else nan.

Definition ndarray : Type := list float.

Inductive value : Type :=
| Scalar (x : pynum)
| Array (a : ndarray).

(** [numpy.arange(n)] for a Python int [n], an int64 array.  numpy computes
    the length as the double [n / 1] cast to a signed 64-bit integer: a
    count that rounds to [2^63] casts to a negative length and gives the
    empty array, a larger one is refused, and so is an array of [2^60] or
    more 8-byte elements; an array the machine cannot hold is a
    [MemoryError]. *)
Definition arange (P : platform) (n : Z) : result (list Z) :=
  if (n <=? 0)%Z then Ok []
  else if (2 ^ 63 + 1024 <? n)%Z then Raise ValueError
  else if (2 ^ 63 - 512 <=? n)%Z then Ok []
  else if (2 ^ 60 <=? n)%Z then Raise ValueError
  else if (max_len P <? n)%Z then Raise MemoryError
  else Ok (map Z.of_nat (seq 0 (Z.to_nat n))).

(** [numpy.ones(n)], as the sequence of its elements *)
Definition ones (n : nat) : list pynum := repeat (PyFloat 1) n.

Fixpoint zip_with (f : float -> float -> float) (a b : ndarray) : ndarray :=
  match a, b with
  | x :: a', y :: b' => f x y :: zip_with f a' b'
  | _, _ => []
  end.

(** array + array, with the broadcasting of one dimension *)
Definition arr_add (a b : ndarray) : result ndarray :=
  if Nat.eqb (length a) (length b) then Ok (zip_with add a b)
  else match a, b with
       | [x], _ => Ok (map (fun y => x + y)%float b)
       | _, [y] => Ok (map (fun x => x + y)%float a)
       | _, _ => Raise ValueError
       end.

(** [v + a] for an accumulator [v] and an array [a] *)
Definition value_add (v : value) (a : ndarray) : result value :=
  match v with
  | Scalar x => x <- to_float x ;; Ok (Array (map (fun y => x + y)%float a))
  | Array b => c <- arr_add b a ;; Ok (Array c)
  end.

Definition is_zero_num (x : pynum) : bool :=
  match x with
  | PyInt z => (z =? 0)%Z
  | PyFloat f => is_zero f
  end.

(** [v / s]: between Python scalars a zero divisor raises
    [ZeroDivisionError]; an array is divided element by element, after the
    conversion of [s].  The accumulator is a scalar only while it is the
    start value, the int 0, whose quotient by a non-zero number is a zero. *)
Definition value_div (v : value) (s : pynum) : result value :=
  match v with
  | Scalar x =>
      if is_zero_num s then Raise ZeroDivisionError
      else Ok (Scalar (PyFloat (float_of x / float_of s)))
  | Array a => d <- to_float s ;; Ok (Array (map (fun x => x / d)%float a))
  end.

(** [weights[i]] *)
Definition getitem (l : list pynum) (i : nat) : result pynum :=
  match nth_error l i with
  | Some x => Ok x
  | None => Raise IndexError
  end.

(** [x + y] between Python numbers: exact on two ints, in doubles as soon
    as one is a float. *)
Definition py_add (x y : pynum) : result pynum :=
  match x, y with
  | PyInt a, PyInt b => Ok (PyInt (a + b))
  | _, _ => a <- to_float x ;; b <- to_float y ;; Ok (PyFloat (a + b))
  end.

Fixpoint py_sum_from (acc : pynum) (l : list pynum) : result pynum :=
  match l with
  | [] => Ok acc
  | x :: l' => acc' <- py_add acc x ;; py_sum_from acc' l'
  end.

(** The builtin [sum], from the int 0. *)
Definition py_sum (l : list pynum) : result pynum := py_sum_from (PyInt 0) l.

(** [gain * sin(phase + arange(n_samples) * 2 * pi * freq / sr)], evaluated
    in the order Python evaluates it. *)
Definition mk_sine_wf (P : platform) (freq : pynum) (n_samples : Z)
    (sr phase gain : pynum) : result ndarray :=
  a <- arange P n_samples ;;
  let a := map (fun i => wrap64 (i * 2)) a in
  let a := map (fun i => (Z2float i * pi)%float) a in
  f <- to_float freq ;;
  let a := map (fun x => (x * f)%float) a in
  s <- to_float sr ;;
  let a := map (fun x => (x / s)%float) a in
  p <- to_float phase ;;
  let a := map (fun x => (p + x)%float) a in
  let a := map (np_sin P) a in
  g <- to_float gain ;;
  Ok (map (fun x => (g * x)%float) a).

Fixpoint sum_weighted (g : pynum -> result ndarray) (weights : list pynum)
    (items : list (nat * pynum)) (acc : value) : result value :=
  match items with
  | [] => Ok acc
  | (i, freq) :: rest =>
      a <- g freq ;;
      w <- getitem weights i ;;
      w <- to_float w ;;
      acc' <- value_add acc (map (fun x => (x * w)%float) a) ;;
      sum_weighted g weights rest acc'
  end.

Definition freq_based_stationary_wf (P : platform) (freqs : list pynum)
    (weights : option (list pynum)) (n_samples : Z) (sr : pynum)
  : result value :=
  let weights :=
    match weights with
    | None => ones (length freqs)
    | Some ws => ws
    end in
  if negb (Nat.eqb (length freqs) (length weights)) then Raise AssertionError
  else
    let _mk_sine_wf := fun freq =>
      mk_sine_wf P freq n_samples sr (PyInt 0) (PyInt 1) in
    wf <- sum_weighted _mk_sine_wf weights (enumerate freqs)
            (Scalar (PyInt 0)) ;;
    s <- py_sum weights ;;
    value_div wf s.

(** The element-wise arithmetic mean of waveforms of one length. *)
Definition mean (wfs : list ndarray) : ndarray :=
  match wfs with
  | [] => []
  | wf :: rest =>
      map (fun x => (x / Z2float (Z.of_nat (length wfs)))%float)
          (fold_left (zip_with add) rest wf)
  end.

(** Sample [i] of [mk_sine_wf] when nothing raises. *)
Definition sample (P : platform) (freq sr phase gain : pynum) (i : nat)
  : float :=
  (float_of gain
   * np_sin P (float_of phase
               + Z2float (wrap64 (Z.of_nat i * 2)) * pi * float_of freq
                 / float_of sr))%float.

(** A call that returns an array of [len] samples. *)
Definition yields (g : pynum -> result ndarray) (len : nat) (f : pynum)
  : Prop :=
  exists b, g f = Ok b /\ length b = len.

(** The docstring of [mk_sine_wf] records the waveform of the defaults with
    three samples, [[0.0, 0.000712379226274755, 0.0014247580910282892]]:
    that is the sine of the platform it was written on, at these three
    arguments. *)
Definition docstring_arg (i : Z) : float :=
  (0 + Z2float (i * 2) * pi * 5 / 44100)%float.
Definition docstring_wf : ndarray :=
  [0%float; 0x1.757debd566bcp-11%float; 0x1.757de59f6a069p-10%float].
Definition matches_docstring (P : platform) : Prop :=
  map (libm_sin P) [docstring_arg 0; docstring_arg 1; docstring_arg 2]
  = docstring_wf.

(** A platform of which nothing is known but the docstring: its sine is NaN
    away from the three arguments, and it holds the default waveform. *)
Definition docstring_sin (x : float) : float :=
  if (x =? docstring_arg 1)%float then nth 1 docstring_wf nan
  else if (x =? docstring_arg 2)%float then nth 2 docstring_wf nan
  else if (x =? docstring_arg 0)%float then nth 0 docstring_wf nan
  else nan.
Definition docstring_platform : platform :=
  {| libm_sin := docstring_sin; max_len := DFLT_N_SAMPLES |}.

End F64.

(** ** Arithmetic of numbers *)

Lemma Rzerob_true (r : R) : r = 0 -> Rzerob r = true.
Proof. intros H. unfold Rzerob. destruct (Req_dec_T r 0); [reflexivity | contradiction]. Qed.

Lemma Rzerob_false (r : R) : r <> 0 -> Rzerob r = false.
Proof. intros H. unfold Rzerob. destruct (Req_dec_T r 0); [contradiction | reflexivity]. Qed.

Lemma Rnegb_true (r : R) : r < 0 -> Rnegb r = true.
Proof. intros H. unfold Rnegb. destruct (Rlt_dec r 0); [reflexivity | contradiction]. Qed.

Lemma Rnegb_false (r : R) : 0 <= r -> Rnegb r = false.
Proof. intros H. unfold Rnegb. destruct (Rlt_dec r 0); [lra | reflexivity]. Qed.

Lemma Rzerob_scale (k a : R) : 0 < k -> Rzerob (a * k) = Rzerob a.
Proof.
  intros Hk. destruct (Req_dec_T a 0) as [E | E].
  - rewrite (Rzerob_true a E). apply Rzerob_true. subst a. ring.
  - rewrite (Rzerob_false a E). apply Rzerob_false. nra.
Qed.

Lemma Rnegb_scale (k a : R) : 0 < k -> Rnegb (a * k) = Rnegb a.
Proof.
  intros Hk. destruct (Rlt_dec a 0) as [E | E].
  - rewrite (Rnegb_true a E). apply Rnegb_true. nra.
  - rewrite (Rnegb_false a) by lra. apply Rnegb_false. nra.
Qed.

Lemma num_add_0_l (x : num) : num_add (Fin 0) x = x.
Proof. destruct x; simpl; try reflexivity. f_equal. ring. Qed.

Lemma num_add_comm (x y : num) : num_add x y = num_add y x.
Proof.
  destruct x as [a | s |], y as [b | t |]; simpl; try reflexivity.
  - f_equal. ring.
  - destruct s, t; reflexivity.
Qed.

Lemma num_add_assoc (x y z : num) :
  num_add x (num_add y z) = num_add (num_add x y) z.
Proof.
  destruct x as [a | s |], y as [b | t |], z as [c | u |]; simpl;
    try reflexivity;
    try (f_equal; ring);
    try (destruct s; reflexivity);
    try (destruct t; reflexivity);
    try (destruct u; reflexivity);
    try (destruct s, t; reflexivity);
    try (destruct t, u; reflexivity);
    try (destruct s, u; reflexivity);
    try (destruct s, t, u; reflexivity).
Qed.

(** Scaling by a positive constant [k] commutes with the arithmetic. *)
Section Scaling.
Variable k : R.
Hypothesis k_pos : 0 < k.

Lemma xorb_Rnegb_k (s : bool) : xorb s (Rnegb k) = s.
Proof. rewrite Rnegb_false by lra. apply xorb_false_r. Qed.


Lemma num_add_scale (x y : num) :
  num_add (num_mul x (Fin k)) (num_mul y (Fin k))
  = num_mul (num_add x y) (Fin k).
Proof.
  assert (Hz : Rzerob k = false) by (apply Rzerob_false; lra).
  destruct x as [a | s |], y as [b | t |]; simpl; rewrite ?Hz, ?xorb_Rnegb_k;
    simpl; try reflexivity.
  - f_equal. ring.
  - destruct (Bool.eqb s t); simpl; [| reflexivity].
    now rewrite Hz, xorb_Rnegb_k.
Qed.

Lemma num_div_scale (x : num) (w : R) :
  num_div (num_mul x (Fin k)) (Fin (k * w)) = num_div x (Fin w).
Proof.
  assert (Hz : Rzerob k = false) by (apply Rzerob_false; lra).
  replace (k * w) with (w * k) by ring.
  destruct x as [a | s |]; simpl; rewrite ?Hz; simpl; try reflexivity.
  - rewrite !Rzerob_scale, Rnegb_scale by assumption.
    destruct (Req_dec_T w 0) as [E | E].
    + rewrite (Rzerob_true w E). reflexivity.
    + rewrite (Rzerob_false w E). f_equal. field. split; lra.
  - now rewrite Rnegb_scale, xorb_Rnegb_k.
Qed.
End Scaling.

(** ** Arrays: shapes and element-wise sums *)

Lemma length_zip_with (f : num -> num -> num) (a b : ndarray) :
  length a = length b -> length (zip_with f a b) = length a.
Proof.
  revert b. induction a as [| x a IH]; intros [| y b] H; simpl in *;
    try reflexivity; try discriminate.
  f_equal. apply IH. now injection H.
Qed.

Lemma zip_with_map (f : num -> num -> num) (h : num -> num) (a b : ndarray) :
  (forall x y, f (h x) (h y) = h (f x y)) ->
  zip_with f (map h a) (map h b) = map h (zip_with f a b).
Proof.
  intros Hf. revert b. induction a as [| x a IH]; intros [| y b]; simpl;
    try reflexivity.
  now rewrite Hf, IH.
Qed.

Lemma arr_add_same_shape (a b : ndarray) :
  length a = length b -> arr_add a b = Ok (zip_with num_add a b).
Proof. intros H. unfold arr_add. now rewrite H, Nat.eqb_refl. Qed.

Lemma s_add_arr_0 (a : ndarray) : s_add_arr (Fin 0) a = a.
Proof.
  unfold s_add_arr. induction a as [| x a IH]; cbn [map]; [reflexivity |].
  now rewrite num_add_0_l, IH.
Qed.

Lemma length_mk_sine_wf (freq : num) (n : Z) (sr phase gain : num) :
  length (mk_sine_wf freq n sr phase gain) = Z.to_nat n.
Proof.
  unfold mk_sine_wf, s_mul_arr, np_sin, s_add_arr, arr_div_s, arr_mul_s, arange.
  now rewrite !length_map, length_seq.
Qed.

Lemma wf_add_comm (a b : ndarray) : Spec.wf_add a b = Spec.wf_add b a.
Proof.
  unfold Spec.wf_add. revert b.
  induction a as [| x a IH]; intros [| y b]; cbn [zip_with]; try reflexivity.
  now rewrite num_add_comm, IH.
Qed.

Lemma wf_add_assoc (a b c : ndarray) :
  Spec.wf_add a (Spec.wf_add b c) = Spec.wf_add (Spec.wf_add a b) c.
Proof.
  unfold Spec.wf_add. revert b c.
  induction a as [| x a IH]; intros [| y b] [| z c]; cbn [zip_with];
    try reflexivity.
  now rewrite num_add_assoc, IH.
Qed.

Lemma wf_add_silence_l (a : ndarray) :
  Spec.wf_add (Spec.silence (length a)) a = a.
Proof.
  unfold Spec.wf_add, Spec.silence.
  induction a as [| x a IH]; cbn [length repeat zip_with]; [reflexivity |].
  now rewrite num_add_0_l, IH.
Qed.

Lemma length_wf_scale (w : num) (a : ndarray) :
  length (Spec.wf_scale w a) = length a.
Proof. apply length_map. Qed.

Lemma py_sum_total (ws : list num) : py_sum ws = Spec.total ws.
Proof.
  unfold py_sum, Spec.total. apply fold_symmetric.
  - apply num_add_assoc.
  - intros y. apply num_add_comm.
Qed.

Lemma wf_sum_fold_left (len : nat) (wfs : list ndarray) :
  fold_left Spec.wf_add wfs (Spec.silence len) = Spec.wf_sum len wfs.
Proof.
  unfold Spec.wf_sum. apply fold_symmetric.
  - apply wf_add_assoc.
  - intros y. apply wf_add_comm.
Qed.

(** ** The accumulation loop *)

Section Loop.
Variable g : num -> ndarray.
Variable len : nat.
Hypothesis g_shape : forall f, length (g f) = len.

(** Once the accumulator is an array, every step adds an array of the same
    shape and reads a weight that exists. *)
Lemma sum_weighted_array (fs : list num) :
  forall (ws pre : list num) (a : ndarray),
    length fs = length ws ->
    length a = len ->
    sum_weighted g (pre ++ ws) (combine (seq (length pre) (length fs)) fs)
                 (Array a)
    = Ok (Array (fold_left Spec.wf_add (Spec.weighted (map g fs) ws) a)).
Proof.
  induction fs as [| f fs IH]; intros [| w ws] pre a Hlen Ha; simpl in *;
    try reflexivity; try discriminate.
  unfold getitem. rewrite nth_error_app2, Nat.sub_diag by apply Nat.le_refl.
  simpl. rewrite arr_add_same_shape
    by (unfold arr_mul_s; now rewrite length_map, g_shape).
  simpl.
  replace (pre ++ w :: ws) with ((pre ++ [w]) ++ ws)
    by (now rewrite <- app_assoc).
  replace (S (length pre)) with (length (pre ++ [w]))
    by (rewrite length_app; simpl; lia).
  apply IH.
  - now injection Hlen.
  - unfold Spec.wf_add. rewrite length_zip_with; [assumption |].
    now rewrite length_wf_scale, g_shape.
Qed.

(** From the int 0, over a non-empty list of frequencies, the loop ends
    with the element-wise sum of the weighted waveforms. *)
Lemma sum_weighted_enumerate (fs ws : list num) :
  fs <> [] ->
  length fs = length ws ->
  sum_weighted g ws (enumerate fs) (Scalar (of_int 0))
  = Ok (Array (Spec.wf_sum len (Spec.weighted (map g fs) ws))).
Proof.
  intros Hne Hlen. destruct fs as [| f fs]; [contradiction |].
  destruct ws as [| w ws]; [discriminate |].
  unfold enumerate. cbn [length seq combine sum_weighted].
  unfold getitem. cbn [nth_error bind value_add].
  unfold of_int. rewrite s_add_arr_0.
  rewrite (sum_weighted_array fs ws [w]).
  - rewrite <- wf_sum_fold_left. cbn [map Spec.weighted fold_left].
    replace (Spec.wf_add (Spec.silence len) (Spec.wf_scale w (g f)))
      with (Spec.wf_scale w (g f)); [reflexivity |].
    rewrite <- (g_shape f), <- (length_wf_scale w (g f)).
    now rewrite wf_add_silence_l.
  - now injection Hlen.
  - unfold arr_mul_s. now rewrite length_map.
Qed.
End Loop.

(** What [freq_based_stationary_wf] evaluates to on a non-empty list of
    frequencies with as many weights. *)
Lemma freq_based_stationary_wf_eval (freqs ws : list num) (n : Z) (sr : num) :
  freqs <> [] ->
  length freqs = length ws ->
  freq_based_stationary_wf freqs (Some ws) n sr
  = Ok (Array (Spec.generateMix freqs ws n sr)).
Proof.
  intros Hne Hlen. unfold freq_based_stationary_wf.
  rewrite Hlen, Nat.eqb_refl. simpl.
  rewrite (sum_weighted_enumerate _ (Z.to_nat n)); try assumption.
  - simpl. now rewrite py_sum_total.
  - intros f. apply length_mk_sine_wf.
Qed.


(** ** Shapes of the mix *)





Lemma length_sines (freqs : list num) (n : Z) (sr : num) :
  length (Spec.sines freqs n sr) = length freqs.
Proof. apply length_map. Qed.

(** ** Real weights *)

Lemma total_Fin (ws : list R) : Spec.total (map Fin ws) = Fin (Rsum ws).
Proof.
  unfold Spec.total, Rsum. induction ws as [| w ws IH]; simpl; [reflexivity |].
  now rewrite IH.
Qed.


Lemma Rsum_repeat (c : R) (m : nat) : Rsum (repeat c m) = c * INR m.
Proof.
  unfold Rsum. induction m as [| m IH]; [simpl; ring |].
  cbn [repeat fold_right]. rewrite IH, S_INR. ring.
Qed.

(** ** Scaling every weight by a positive constant *)

Section ScaledWeights.
Variable k : R.
Hypothesis k_pos : 0 < k.



Lemma wf_scale_silence (len : nat) :
  Spec.wf_scale (Fin k) (Spec.silence len) = Spec.silence len.
Proof.
  unfold Spec.wf_scale, Spec.silence. induction len as [| len IH];
    cbn [repeat map]; [reflexivity |].
  rewrite IH. cbn [num_mul]. now rewrite Rmult_0_l.
Qed.

Lemma wf_sum_scale (len : nat) (wfs : list ndarray) :
  Spec.wf_sum len (map (Spec.wf_scale (Fin k)) wfs)
  = Spec.wf_scale (Fin k) (Spec.wf_sum len wfs).
Proof.
  unfold Spec.wf_sum. induction wfs as [| a wfs IH]; cbn [map fold_right].
  - symmetry. apply wf_scale_silence.
  - rewrite IH. unfold Spec.wf_add, Spec.wf_scale. apply zip_with_map.
    intros x y. now apply num_add_scale.
Qed.

Lemma div_scale (w : R) (a : ndarray) :
  map (fun x => num_div x (Fin (k * w))) (Spec.wf_scale (Fin k) a)
  = map (fun x => num_div x (Fin w)) a.
Proof.
  unfold Spec.wf_scale. rewrite map_map. apply map_ext. intros x.
  now apply num_div_scale.
Qed.

End ScaledWeights.

Lemma weighted_repeat (c : R) (wfs : list ndarray) :
  Spec.weighted wfs (repeat (Fin c) (length wfs))
  = map (Spec.wf_scale (Fin c)) wfs.
Proof.
  induction wfs as [| a wfs IH]; cbn [length repeat map Spec.weighted];
    [reflexivity |].
  now rewrite IH.
Qed.

Lemma map_Fin_repeat (c : R) (m : nat) :
  repeat (Fin c) m = map Fin (repeat c m).
Proof. induction m as [| m IH]; simpl; [reflexivity | now rewrite IH]. Qed.

Lemma total_repeat (c : R) (m : nat) :
  Spec.total (repeat (Fin c) m) = Fin (c * INR m).
Proof. now rewrite map_Fin_repeat, total_Fin, Rsum_repeat. Qed.

(** ** Finite inputs of [mk_sine_wf] *)

Lemma mk_sine_wf_Fin (freq phase gain sr : R) (n : Z) :
  sr <> 0 ->
  mk_sine_wf (Fin freq) n (Fin sr) (Fin phase) (Fin gain)
  = map (fun i => Fin (gain * sin (phase + INR i * 2 * PI * freq / sr)))
        (seq 0 (Z.to_nat n)).
Proof.
  intros Hsr.
  unfold mk_sine_wf, s_mul_arr, np_sin, s_add_arr, arr_div_s, arr_mul_s, arange.
  rewrite !map_map. apply map_ext. intros i. cbn [of_int pi num_mul num_div].
  rewrite (Rzerob_false sr Hsr). reflexivity.
Qed.

(** ** No frequencies

    With no frequency the builtin [sum] returns its start value, the int 0,
    and [sum(weights)] is the int 0 as well: the final division is one of
    Python ints and raises. *)
Lemma no_freqs_raise (n : Z) (sr : num) :
  freq_based_stationary_wf [] None n sr = Raise ZeroDivisionError
  /\ freq_based_stationary_wf [] (Some []) n sr = Raise ZeroDivisionError.
Proof.
  unfold freq_based_stationary_wf, enumerate, py_sum, of_int.
  cbn [length ones repeat Nat.eqb negb seq combine sum_weighted bind
       fold_left value_div].
  now rewrite (Rzerob_true 0 eq_refl).
Qed.


(** ** The float64 reading: when nothing raises *)

Section F64_facts.
Import PrimFloat.
Variable P : F64.platform.

Lemma f64_to_float_fits (x : F64.pynum) :
  F64.fits x = true -> F64.to_float x = F64.Ok (F64.float_of x).
Proof. intros H. unfold F64.to_float. now rewrite H. Qed.

Lemma f64_arange_ok (n : Z) :
  (n <= F64.max_len P)%Z ->
  (n < 2 ^ 60)%Z ->
  F64.arange P n = F64.Ok (map Z.of_nat (seq 0 (Z.to_nat n))).
Proof.
  intros Hmax Hn. unfold F64.arange.
  destruct (Z.leb_spec n 0) as [H0 | H0].
  - now replace (Z.to_nat n) with 0%nat by lia.
  - replace (2 ^ 63 + 1024 <? n)%Z with false by (symmetry; apply Z.ltb_ge; lia).
    replace (2 ^ 63 - 512 <=? n)%Z with false by (symmetry; apply Z.leb_gt; lia).
    replace (2 ^ 60 <=? n)%Z with false by (symmetry; apply Z.leb_gt; lia).
    now replace (F64.max_len P <? n)%Z with false
      by (symmetry; apply Z.ltb_ge; lia).
Qed.

Lemma f64_mk_sine_wf_ok (freq sr phase gain : F64.pynum) (n : Z) :
  (n <= F64.max_len P)%Z ->
  (n < 2 ^ 60)%Z ->
  F64.fits freq = true -> F64.fits sr = true ->
  F64.fits phase = true -> F64.fits gain = true ->
  F64.mk_sine_wf P freq n sr phase gain
  = F64.Ok (map (F64.sample P freq sr phase gain) (seq 0 (Z.to_nat n))).
Proof.
  intros Hmax Hn Hf Hs Hp Hg. unfold F64.mk_sine_wf.
  rewrite f64_arange_ok by assumption.
  rewrite !f64_to_float_fits by assumption.
  cbn [F64.bind]. now rewrite !map_map.
Qed.



(** ** The float64 reading: the accumulation loop *)

Section F64_loop.
Variable g : F64.pynum -> F64.result F64.ndarray.
Variable len : nat.

Lemma f64_length_zip_with (op : float -> float -> float)
    (a b : F64.ndarray) :
  length a = length b -> length (F64.zip_with op a b) = length a.
Proof.
  revert b. induction a as [| x a IH]; intros [| y b] H; simpl in *;
    try reflexivity; try discriminate.
  f_equal. apply IH. now injection H.
Qed.

Lemma f64_sum_weighted_array (fs : list F64.pynum) :
  forall (ws pre : list F64.pynum) (a : F64.ndarray),
    length fs = length ws ->
    length a = len ->
    Forall (F64.yields g len) fs ->
    Forall (fun w => F64.fits w = true) ws ->
    exists c,
      F64.sum_weighted g (pre ++ ws)
        (combine (seq (length pre) (length fs)) fs) (F64.Array a)
      = F64.Ok (F64.Array c)
      /\ length c = len.
Proof.
  induction fs as [| f fs IH]; intros [| w ws] pre a Hlen Ha Hfs Hws;
    try discriminate.
  - exists a. now split.
  - destruct (Forall_inv Hfs) as [b [Hb Hblen]].
    apply Forall_inv_tail in Hfs.
    pose proof (Forall_inv Hws) as Hw. apply Forall_inv_tail in Hws.
    cbn [length seq combine F64.sum_weighted]. rewrite Hb. cbn [F64.bind].
    unfold F64.getitem.
    rewrite nth_error_app2, Nat.sub_diag by apply Nat.le_refl.
    cbn [nth_error F64.bind]. unfold F64.to_float. rewrite Hw.
    cbn [F64.bind F64.value_add]. unfold F64.arr_add.
    rewrite length_map, Ha, Hblen, Nat.eqb_refl. cbn [F64.bind].
    replace (pre ++ w :: ws) with ((pre ++ [w]) ++ ws)
      by (now rewrite <- app_assoc).
    replace (S (length pre)) with (length (pre ++ [w]))
      by (rewrite length_app; simpl; lia).
    apply IH; try assumption.
    + now injection Hlen.
    + rewrite f64_length_zip_with; [assumption |].
      now rewrite length_map, Ha, Hblen.
Qed.

Lemma f64_sum_weighted_enumerate (fs ws : list F64.pynum) :
  fs <> [] ->
  length fs = length ws ->
  Forall (F64.yields g len) fs ->
  Forall (fun w => F64.fits w = true) ws ->
  exists c,
    F64.sum_weighted g ws (enumerate fs) (F64.Scalar (F64.PyInt 0))
    = F64.Ok (F64.Array c)
    /\ length c = len.
Proof.
  intros Hne Hlen Hfs Hws. destruct fs as [| f fs]; [contradiction |].
  destruct ws as [| w ws]; [discriminate |].
  destruct (Forall_inv Hfs) as [b [Hb Hblen]]. apply Forall_inv_tail in Hfs.
  pose proof (Forall_inv Hws) as Hw. apply Forall_inv_tail in Hws.
  unfold enumerate. cbn [length seq combine F64.sum_weighted].
  rewrite Hb. unfold F64.getitem. cbn [nth_error F64.bind].
  unfold F64.to_float at 1. rewrite Hw. cbn [F64.bind F64.value_add].
  change (F64.to_float (F64.PyInt 0))
    with (F64.Ok (F64.float_of (F64.PyInt 0))).
  cbn [F64.bind].
  apply (f64_sum_weighted_array fs ws [w]); try assumption.
  - now injection Hlen.
  - now rewrite !length_map.
Qed.
End F64_loop.

(** ** The float64 reading: the two functions *)


Lemma f64_py_sum_from_ones (k : nat) :
  forall acc : F64.pynum,
    F64.fits acc = true ->
    exists s, F64.py_sum_from acc (F64.ones k) = F64.Ok s
              /\ F64.fits s = true.
Proof.
  unfold F64.ones. induction k as [| k IH]; intros acc Hacc.
  - exists acc. now split.
  - cbn [repeat F64.py_sum_from].
    assert (E : F64.py_add acc (F64.PyFloat 1)
                = F64.Ok (F64.PyFloat
                            (add (F64.float_of acc) 1%float))).
    { unfold F64.py_add. destruct acc; rewrite f64_to_float_fits by assumption;
        reflexivity. }
    rewrite E. cbn [F64.bind]. now apply IH.
Qed.

Lemma f64_fits_ones (k : nat) :
  Forall (fun w => F64.fits w = true) (F64.ones k).
Proof. apply Forall_forall. intros w Hw. apply repeat_spec in Hw. now subst. Qed.

Lemma f64_mk_sine_wf_yields (freqs : list F64.pynum) (n : Z)
    (sr : F64.pynum) :
  (n <= F64.max_len P)%Z ->
  (n < 2 ^ 60)%Z ->
  Forall (fun f => F64.fits f = true) freqs ->
  F64.fits sr = true ->
  Forall (F64.yields
            (fun freq => F64.mk_sine_wf P freq n sr (F64.PyInt 0) (F64.PyInt 1))
            (Z.to_nat n)) freqs.
Proof.
  intros Hmax Hn Hfs Hsr. eapply Forall_impl; [| exact Hfs].
  intros f Hf. eexists. split.
  - now apply f64_mk_sine_wf_ok.
  - now rewrite length_map, length_seq.
Qed.

(** On a non-empty list of frequencies with as many weights, all of them
    convertible, and a length that can be allocated, the call returns the
    accumulated array divided by the sum of the weights. *)
Lemma f64_freq_based_stationary_wf_ok
    (freqs ws : list F64.pynum) (n : Z) (sr s : F64.pynum) :
  freqs <> [] ->
  length freqs = length ws ->
  (n <= F64.max_len P)%Z ->
  (n < 2 ^ 60)%Z ->
  Forall (fun f => F64.fits f = true) freqs ->
  F64.fits sr = true ->
  Forall (fun w => F64.fits w = true) ws ->
  F64.py_sum ws = F64.Ok s ->
  F64.fits s = true ->
  exists c,
    F64.freq_based_stationary_wf P freqs (Some ws) n sr
    = F64.Ok (F64.Array
                (map (fun x => div x (F64.float_of s)) c))
    /\ length c = Z.to_nat n.
Proof.
  intros Hne Hlen Hmax Hn Hfs Hsr Hws Hsum Hs.
  unfold F64.freq_based_stationary_wf.
  rewrite Hlen, Nat.eqb_refl. cbn [negb].
  destruct (f64_sum_weighted_enumerate
              (fun freq => F64.mk_sine_wf P freq n sr (F64.PyInt 0)
                             (F64.PyInt 1))
              (Z.to_nat n) freqs ws Hne Hlen) as [c [Hc Hclen]].
  - now apply f64_mk_sine_wf_yields.
  - assumption.
  - exists c. split; [| assumption].
    rewrite Hc, Hsum. cbn [F64.bind F64.value_div].
    now rewrite f64_to_float_fits.
Qed.


End F64_facts.

Section F64_docstring.
Import PrimFloat.

(** On a platform that matches the docstring, the call of the docstring
    returns what the docstring records. *)
Lemma f64_docstring_wf (P : F64.platform) :
  (3 <= F64.max_len P)%Z ->
  F64.matches_docstring P ->
  F64.mk_sine_wf P (F64.PyInt 5) 3 (F64.PyInt 44100) (F64.PyInt 0)
    (F64.PyInt 1)
  = F64.Ok F64.docstring_wf.
Proof.
  intros HP Hdoc. rewrite f64_mk_sine_wf_ok by (try reflexivity; assumption).
  unfold F64.matches_docstring in Hdoc.
  pose proof (f_equal (fun l => nth 0 l nan) Hdoc) as H0.
  pose proof (f_equal (fun l => nth 1 l nan) Hdoc) as H1.
  pose proof (f_equal (fun l => nth 2 l nan) Hdoc) as H2.
  vm_compute in H0, H1, H2.
  vm_compute. rewrite H0, H1, H2. vm_compute. reflexivity.
Qed.

Lemma f64_docstring_platform_matches :
  F64.matches_docstring F64.docstring_platform.
Proof. vm_compute. reflexivity. Qed.
End F64_docstring.

(** * The claims *)

Section C1_float64.
Import PrimFloat.

(** C1, as stated, fails on the doubles the code computes with.  At the
    frequency 1e308, with the defaults for the rest and three samples, the
    product [arange(n) * 2 * pi * freq] overflows to an infinity at index 1,
    the sine of an infinity is NaN, and NaN is what the code returns there,
    on every platform: no real number, where the claim has
    [gain * sin(...)]. *)
Lemma f64_mk_sine_wf_overflow :
  exists x : float,
    is_nan x = true
    /\ F64.to_R x = None
    /\ forall P : F64.platform,
         (3 <= F64.max_len P)%Z ->
         exists wf : F64.ndarray,
           F64.mk_sine_wf P (F64.PyFloat 0x1.1ccf385ebc8ap+1023) 3
             (F64.PyInt 44100) (F64.PyInt 0) (F64.PyInt 1)
           = F64.Ok wf
           /\ nth_error wf 1 = Some x.
Proof.
  exists nan. split; [reflexivity |]. split; [reflexivity |]. intros P HP.
  eexists. split.
  - apply f64_mk_sine_wf_ok; try reflexivity; try assumption.
  - vm_compute. reflexivity.
Qed.
End C1_float64.

(** C1, amended.  In exact real arithmetic (the rounding and the overflow
    of the doubles set aside): for real [freq], [phase] and [gain], a
    positive integer sample rate [sr] and a sample count [n >= 0], the
    sample of [mk_sine_wf] at every index [i < n] is
    [gain * sin (phase + i * 2 pi * freq / sr)]. *)
Theorem mk_sine_wf_sample (freq phase gain : R) (sr n : Z) (i : nat) :
  (0 < sr)%Z ->
  (0 <= n)%Z ->
  (Z.of_nat i < n)%Z ->
  nth_error (mk_sine_wf (Fin freq) n (of_int sr) (Fin phase) (Fin gain)) i
  = Some (Fin (gain * sin (phase + INR i * (2 * PI) * freq / IZR sr))).
Proof.
  intros Hsr Hn Hi.
  assert (Hsr' : IZR sr <> 0) by (apply IZR_lt in Hsr; lra).
  unfold of_int. rewrite (mk_sine_wf_Fin _ _ _ _ _ Hsr').
  rewrite nth_error_map, nth_error_seq.
  replace (i <? Z.to_nat n)%nat with true
    by (symmetry; apply Nat.ltb_lt; lia).
  cbn [option_map Nat.add]. do 4 f_equal. field. exact Hsr'.
Qed.

Lemma mk_sine_wf_sample_witness :
  nth_error (mk_sine_wf (Fin 5) 3 (of_int DFLT_SR) (Fin 0) (Fin 1)) 1
  = Some (Fin (1 * sin (0 + INR 1 * (2 * PI) * 5 / IZR DFLT_SR))).
Proof.
  apply (mk_sine_wf_sample 5 0 1 DFLT_SR 3 1); [reflexivity | lia | lia].
Defined.



Section C3_float64.
Import PrimFloat.

(** C3, as stated, fails for sample counts beyond what numpy can address:
    with [n_samples = 2^62] the call raises [ValueError], and with
    [n_samples = 2^63 - 1] it returns the empty waveform, on every
    platform. *)
Lemma f64_mk_sine_wf_huge_n :
  exists e : F64.exn,
    (forall P : F64.platform,
        F64.mk_sine_wf P (F64.PyInt 5) (2 ^ 62) (F64.PyInt 44100)
          (F64.PyInt 0) (F64.PyInt 1)
        = F64.Raise e)
    /\ (forall P : F64.platform,
          F64.mk_sine_wf P (F64.PyInt 5) (2 ^ 63 - 1) (F64.PyInt 44100)
            (F64.PyInt 0) (F64.PyInt 1)
          = F64.Ok []).
Proof.
  exists F64.ValueError. split; intros P; reflexivity.
Qed.

(** C3, amended.  For every sample count [n] with [0 <= n < 2^60] that the
    machine can allocate, and arguments that are doubles or ints within the
    range of the doubles, [mk_sine_wf] raises nothing and returns a
    waveform of exactly [n] samples; for [n = 0] it is the empty
    waveform. *)
Theorem f64_mk_sine_wf_length (P : F64.platform)
    (freq sr phase gain : F64.pynum) (n : Z) :
  (0 <= n)%Z ->
  (n <= F64.max_len P)%Z ->
  (n < 2 ^ 60)%Z ->
  F64.fits freq = true -> F64.fits sr = true ->
  F64.fits phase = true -> F64.fits gain = true ->
  exists wf : F64.ndarray,
    F64.mk_sine_wf P freq n sr phase gain = F64.Ok wf
    /\ Z.of_nat (length wf) = n
    /\ (n = 0%Z -> wf = []).
Proof.
  intros H0 Hmax Hn Hf Hs Hp Hg. eexists. split; [| split].
  - now apply f64_mk_sine_wf_ok.
  - rewrite length_map, length_seq. now apply Z2Nat.id.
  - intros ->. reflexivity.
Qed.

Lemma f64_mk_sine_wf_length_witness :
  exists wf : F64.ndarray,
    F64.mk_sine_wf F64.docstring_platform (F64.PyInt 5) 3 (F64.PyInt 44100)
      (F64.PyInt 0) (F64.PyInt 1)
    = F64.Ok wf
    /\ Z.of_nat (length wf) = 3%Z
    /\ (3%Z = 0%Z -> wf = []).
Proof.
  apply (f64_mk_sine_wf_length F64.docstring_platform);
    try reflexivity; try (vm_compute; discriminate).
Defined.
End C3_float64.

(** C4.  When the weights supplied do not have the length of the
    frequencies, [freq_based_stationary_wf] fails on its assertion; it
    returns nothing. *)
Theorem mismatched_lengths_raise
    (freqs ws : list num) (n : Z) (sr : num) :
  length freqs <> length ws ->
  freq_based_stationary_wf freqs (Some ws) n sr = Raise AssertionError.
Proof.
  intros H. unfold freq_based_stationary_wf.
  apply Nat.eqb_neq in H. now rewrite H.
Qed.

Lemma mismatched_lengths_raise_witness :
  freq_based_stationary_wf [of_int 200; of_int 400] (Some [of_int 1]) 3
    (of_int 44100)
  = Raise AssertionError.
Proof. apply mismatched_lengths_raise. simpl. lia. Defined.








Section C8_float64.
Import PrimFloat.

(** C8, as stated, fails on the doubles the code computes with.  Mixing the
    default frequency with itself under the two weights [2^1023], three
    samples, on a platform that matches the docstring of [mk_sine_wf]:
    [sum(weights)] overflows to an infinity and every sample of the result
    is 0, while the mean of the two sine waveforms is the waveform of the
    docstring. *)
Lemma f64_equal_weights_overflow :
  exists wf m : F64.ndarray,
    wf <> m
    /\ (exists P : F64.platform,
          (3 <= F64.max_len P)%Z /\ F64.matches_docstring P)
    /\ forall P : F64.platform,
         (3 <= F64.max_len P)%Z ->
         F64.matches_docstring P ->
         F64.freq_based_stationary_wf P [F64.PyInt 5; F64.PyInt 5]
           (Some [F64.PyFloat 0x1p+1023; F64.PyFloat 0x1p+1023]) 3
           (F64.PyInt 44100)
         = F64.Ok (F64.Array wf)
         /\ exists s : F64.ndarray,
              F64.mk_sine_wf P (F64.PyInt 5) 3 (F64.PyInt 44100)
                (F64.PyInt 0) (F64.PyInt 1)
              = F64.Ok s
              /\ F64.mean [s; s] = m.
Proof.
  exists [0; 0; 0]%float, F64.docstring_wf. split; [| split].
  - intros H. apply (f_equal (fun l => is_zero (nth 1 l nan))) in H.
    vm_compute in H. discriminate H.
  - exists F64.docstring_platform. split.
    + vm_compute. discriminate.
    + apply f64_docstring_platform_matches.
  - intros P HP Hdoc. split.
    + unfold F64.freq_based_stationary_wf, enumerate.
      cbn [length negb Nat.eqb seq combine F64.sum_weighted].
      rewrite !(f64_docstring_wf P HP Hdoc). vm_compute. reflexivity.
    + exists F64.docstring_wf. split.
      * now apply f64_docstring_wf.
      * vm_compute. reflexivity.
Qed.
End C8_float64.

(** C8, amended.  In exact real arithmetic (the rounding and the overflow
    of the doubles set aside): on a non-empty list of frequencies whose
    weights all equal the same positive [c], the waveform returned is the
    element-wise arithmetic mean of the sine waveforms of the frequencies
    (gain 1, phase 0). *)
Theorem equal_weights_mean (freqs : list num) (c : R) (n : Z) (sr : num) :
  freqs <> [] ->
  0 < c ->
  freq_based_stationary_wf freqs (Some (repeat (Fin c) (length freqs))) n sr
  = Ok (Array (Spec.mean (Z.to_nat n) (Spec.sines freqs n sr))).
Proof.
  intros Hne Hc.
  rewrite freq_based_stationary_wf_eval
    by (try assumption; now rewrite repeat_length).
  do 2 f_equal. unfold Spec.generateMix, Spec.mean.
  rewrite total_repeat, length_sines.
  replace (Spec.weighted (Spec.sines freqs n sr)
             (repeat (Fin c) (length freqs)))
    with (map (Spec.wf_scale (Fin c)) (Spec.sines freqs n sr))
    by (now rewrite <- weighted_repeat, length_sines).
  rewrite (wf_sum_scale c Hc). apply (div_scale c Hc).
Qed.

Lemma equal_weights_mean_witness :
  freq_based_stationary_wf [of_int 200; of_int 400]
    (Some (repeat (Fin 3) 2)) 3 (of_int 44100)
  = Ok (Array (Spec.mean (Z.to_nat 3)
                 (Spec.sines [of_int 200; of_int 400] 3 (of_int 44100)))).
Proof.
  apply (equal_weights_mean [of_int 200; of_int 400] 3).
  - discriminate.
  - lra.
Defined.

Section C10_float64.
Import PrimFloat.


End C10_float64.

(** * Further properties *)

(** ** The mix sample by sample *)

Lemma zip_with_maps {A : Type} (f : num -> num -> num) (g h : A -> num)
    (l : list A) :
  zip_with f (map g l) (map h l) = map (fun x => f (g x) (h x)) l.
Proof.
  induction l as [| x l IH]; cbn [map zip_with]; [reflexivity |].
  now rewrite IH.
Qed.

Lemma silence_seq (len : nat) :
  Spec.silence len = map (fun _ => Fin 0) (seq 0 len).
Proof. unfold Spec.silence. now rewrite map_const, length_seq. Qed.

Lemma unit_sine_Fin (freq sr : R) (n : Z) :
  sr <> 0 ->
  mk_sine_wf (Fin freq) n (Fin sr) (Fin 0) (Fin 1)
  = map (fun i => Fin (sin (INR i * (2 * PI) * freq / sr)))
        (seq 0 (Z.to_nat n)).
Proof.
  intros Hsr. rewrite mk_sine_wf_Fin by assumption.
  apply map_ext. intros i. rewrite Rmult_1_l, Rplus_0_l.
  do 2 f_equal. field. assumption.
Qed.

(** On real inputs the sum of the weighted sines is finite, sample by
    sample. *)
Lemma wf_sum_Fin (sr : R) (n : Z) (freqs : list R) :
  sr <> 0 ->
  forall ws : list R,
    Spec.wf_sum (Z.to_nat n)
      (Spec.weighted (Spec.sines (map Fin freqs) n (Fin sr)) (map Fin ws))
    = map (fun i => Fin (mix_numerator freqs ws sr i)) (seq 0 (Z.to_nat n)).
Proof.
  intros Hsr. unfold Spec.wf_sum, Spec.sines.
  induction freqs as [| f freqs IH]; intros [| w ws];
    cbn [map Spec.weighted fold_right mix_numerator];
    try apply silence_seq.
  rewrite IH, unit_sine_Fin by assumption.
  unfold Spec.wf_scale, Spec.wf_add. rewrite map_map.
  apply (zip_with_maps num_add).
Qed.

Lemma generateMix_Fin (freqs ws : list R) (sr : R) (n : Z) :
  sr <> 0 ->
  Spec.generateMix (map Fin freqs) (map Fin ws) n (Fin sr)
  = map (fun i => num_div (Fin (mix_numerator freqs ws sr i))
                          (Fin (Rsum ws)))
        (seq 0 (Z.to_nat n)).
Proof.
  intros Hsr. unfold Spec.generateMix.
  now rewrite wf_sum_Fin, total_Fin, map_map.
Qed.

Lemma generateMix_sample (freqs ws : list R) (sr : R) (n : Z) :
  sr <> 0 ->
  Rsum ws <> 0 ->
  Spec.generateMix (map Fin freqs) (map Fin ws) n (Fin sr)
  = map (fun i => Fin (mix_sample freqs ws sr i)) (seq 0 (Z.to_nat n)).
Proof.
  intros Hsr Hw. rewrite generateMix_Fin by assumption.
  apply map_ext. intros i. cbn [num_div].
  now rewrite (Rzerob_false _ Hw).
Qed.

Lemma freq_based_stationary_wf_Fin (freqs ws : list R) (sr : R) (n : Z) :
  freqs <> [] ->
  length freqs = length ws ->
  freq_based_stationary_wf (map Fin freqs) (Some (map Fin ws)) n (Fin sr)
  = Ok (Array (Spec.generateMix (map Fin freqs) (map Fin ws) n (Fin sr))).
Proof.
  intros Hne Hlen. apply freq_based_stationary_wf_eval.
  - destruct freqs; [contradiction | discriminate].
  - now rewrite !length_map.
Qed.

(** X1.  With no frequency [freq_based_stationary_wf] never returns a
    waveform: weights that are omitted or empty end in the division of the
    int 0 by the int 0, any other weights fail the assertion. *)
Theorem no_freqs_never_returns
    (weights : option (list num)) (n : Z) (sr : num) :
  freq_based_stationary_wf [] weights n sr
  = match weights with
    | None | Some [] => Raise ZeroDivisionError
    | Some (_ :: _) => Raise AssertionError
    end.
Proof.
  destruct weights as [[| w ws] |]; [| reflexivity |];
    unfold freq_based_stationary_wf, enumerate, py_sum, of_int;
    cbn [length ones repeat Nat.eqb negb seq combine sum_weighted bind
         fold_left value_div];
    now rewrite (Rzerob_true 0 eq_refl).
Qed.

Section X2_float64.
Import PrimFloat.

(** X2.  On the doubles the code computes with: on a non-empty list of
    frequencies, with the weights omitted or as many as the frequencies,
    when every number is a double or an int within the range of the
    doubles, [sum(weights)] is too, and the sample count is below [2^60] and
    one the machine can allocate, [freq_based_stationary_wf] raises nothing
    and returns an array of exactly [n_samples] samples (none when
    [n_samples] is negative). *)
Theorem f64_freq_based_stationary_wf_length (P : F64.platform)
    (freqs : list F64.pynum) (weights : option (list F64.pynum)) (n : Z)
    (sr : F64.pynum) :
  freqs <> [] ->
  match weights with
  | Some ws =>
      length freqs = length ws
      /\ Forall (fun w => F64.fits w = true) ws
      /\ exists s, F64.py_sum ws = F64.Ok s /\ F64.fits s = true
  | None => True
  end ->
  (n <= F64.max_len P)%Z ->
  (n < 2 ^ 60)%Z ->
  Forall (fun f => F64.fits f = true) freqs ->
  F64.fits sr = true ->
  exists wf : F64.ndarray,
    F64.freq_based_stationary_wf P freqs weights n sr = F64.Ok (F64.Array wf)
    /\ length wf = Z.to_nat n.
Proof.
  intros Hne Hw Hmax Hn Hfs Hsr.
  assert (E : forall ws s,
             length freqs = length ws ->
             Forall (fun w => F64.fits w = true) ws ->
             F64.py_sum ws = F64.Ok s -> F64.fits s = true ->
             exists wf,
               F64.freq_based_stationary_wf P freqs (Some ws) n sr
               = F64.Ok (F64.Array wf)
               /\ length wf = Z.to_nat n).
  { intros ws s Hlen Hws Hsum Hs.
    destruct (f64_freq_based_stationary_wf_ok P freqs ws n sr s)
      as [c [Hc Hclen]]; try assumption.
    eexists. split; [exact Hc | now rewrite length_map]. }
  destruct weights as [ws |].
  - destruct Hw as [Hlen [Hws [s [Hsum Hs]]]]. now apply (E ws s).
  - destruct (f64_py_sum_from_ones (length freqs) (F64.PyInt 0) eq_refl)
      as [s [Hsum Hs]].
    apply (E (F64.ones (length freqs)) s); try assumption.
    + unfold F64.ones. now rewrite repeat_length.
    + apply f64_fits_ones.
Qed.

Lemma f64_freq_based_stationary_wf_length_witness :
  exists wf : F64.ndarray,
    F64.freq_based_stationary_wf F64.docstring_platform
      [F64.PyInt 5; F64.PyInt 5; F64.PyInt 5; F64.PyInt 5]
      (Some [F64.PyInt 1; F64.PyInt 2; F64.PyInt 3; F64.PyInt 4]) 3
      (F64.PyInt 44100)
    = F64.Ok (F64.Array wf)
    /\ length wf = Z.to_nat 3.
Proof.
  apply (f64_freq_based_stationary_wf_length F64.docstring_platform
           [F64.PyInt 5; F64.PyInt 5; F64.PyInt 5; F64.PyInt 5]
           (Some [F64.PyInt 1; F64.PyInt 2; F64.PyInt 3; F64.PyInt 4])).
  - discriminate.
  - split; [reflexivity | split].
    + repeat constructor.
    + exists (F64.PyInt 10). split; reflexivity.
  - vm_compute. discriminate.
  - reflexivity.
  - repeat constructor.
  - reflexivity.
Defined.
End X2_float64.

(** X3.  The mix in closed form.  For real frequencies and weights, as many
    of one as of the other, a non-zero total weight and a non-zero sample
    rate, sample [i < n_samples] of the result is
    [(sum_j sin(i * 2 pi * freq_j / sr) * weight_j) / sum(weights)]. *)
Theorem freq_based_stationary_wf_sample
    (freqs ws : list R) (sr : R) (n : Z) (i : nat) :
  freqs <> [] ->
  length freqs = length ws ->
  sr <> 0 ->
  Rsum ws <> 0 ->
  (Z.of_nat i < n)%Z ->
  exists wf : ndarray,
    freq_based_stationary_wf (map Fin freqs) (Some (map Fin ws)) n (Fin sr)
    = Ok (Array wf)
    /\ nth_error wf i = Some (Fin (mix_sample freqs ws sr i)).
Proof.
  intros Hne Hlen Hsr Hw Hi.
  exists (Spec.generateMix (map Fin freqs) (map Fin ws) n (Fin sr)). split.
  - now apply freq_based_stationary_wf_Fin.
  - rewrite generateMix_sample by assumption.
    rewrite nth_error_map, nth_error_seq.
    replace (i <? Z.to_nat n)%nat with true
      by (symmetry; apply Nat.ltb_lt; lia).
    reflexivity.
Qed.

Lemma freq_based_stationary_wf_sample_witness :
  exists wf : ndarray,
    freq_based_stationary_wf (map Fin [200; 400]) (Some (map Fin [1; 3])) 3
      (Fin 44100)
    = Ok (Array wf)
    /\ nth_error wf 1 = Some (Fin (mix_sample [200; 400] [1; 3] 44100 1)).
Proof.
  apply (freq_based_stationary_wf_sample [200; 400] [1; 3] 44100 3 1).
  - discriminate.
  - reflexivity.
  - lra.
  - unfold Rsum. simpl. lra.
  - lia.
Defined.

(** ** Amplitudes *)

Lemma Rsum_nonneg (ws : list R) :
  Forall (fun w => 0 <= w) ws -> 0 <= Rsum ws.
Proof.
  unfold Rsum. induction 1 as [| w ws Hw _ IH]; simpl; lra.
Qed.

Lemma mix_numerator_bound (sr : R) (i : nat) (freqs : list R) :
  forall ws : list R,
    Forall (fun w => 0 <= w) ws ->
    Rabs (mix_numerator freqs ws sr i) <= Rsum ws.
Proof.
  induction freqs as [| f freqs IH]; intros ws Hws.
  - destruct ws; cbn [mix_numerator]; rewrite Rabs_R0;
      now apply Rsum_nonneg.
  - destruct ws as [| w ws]; cbn [mix_numerator].
    + rewrite Rabs_R0. apply Rle_refl.
    + inversion Hws as [| w' ws' Hw Hws' E]. subst.
      specialize (IH ws Hws').
      change (Rsum (w :: ws)) with (w + Rsum ws).
      eapply Rle_trans; [apply Rabs_triang |].
      apply Rplus_le_compat; [| exact IH].
      rewrite Rabs_mult, (Rabs_pos_eq w Hw).
      assert (Hs : Rabs (sin (INR i * (2 * PI) * f / sr)) <= 1)
        by (apply Rabs_le, SIN_bound).
      nra.
Qed.

Lemma mix_sample_bound (sr : R) (i : nat) (freqs ws : list R) :
  Forall (fun w => 0 <= w) ws ->
  0 < Rsum ws ->
  Rabs (mix_sample freqs ws sr i) <= 1.
Proof.
  intros Hws Hpos. unfold mix_sample, Rdiv.
  rewrite Rabs_mult, (Rabs_pos_eq (/ Rsum ws))
    by (left; now apply Rinv_0_lt_compat).
  apply (Rmult_le_reg_r (Rsum ws)); [assumption |].
  rewrite Rmult_assoc, Rinv_l, Rmult_1_r, Rmult_1_l by lra.
  now apply mix_numerator_bound.
Qed.

(** X4.  In exact real arithmetic: for real arguments and a non-zero sample
    rate, every sample of [mk_sine_wf] is finite and of magnitude at most
    [|gain|]. *)
Theorem mk_sine_wf_amplitude (freq phase gain sr : R) (n : Z) :
  sr <> 0 ->
  Forall (within (Rabs gain))
         (mk_sine_wf (Fin freq) n (Fin sr) (Fin phase) (Fin gain)).
Proof.
  intros Hsr. rewrite mk_sine_wf_Fin by assumption.
  apply Forall_map, Forall_forall. intros i _.
  eexists. split; [reflexivity |].
  rewrite Rabs_mult.
  assert (Hs : Rabs (sin (phase + INR i * 2 * PI * freq / sr)) <= 1)
    by (apply Rabs_le, SIN_bound).
  pose proof (Rabs_pos gain). nra.
Qed.

Lemma mk_sine_wf_amplitude_witness :
  Forall (within (Rabs 2)) (mk_sine_wf (Fin 5) 3 (Fin 44100) (Fin 0) (Fin 2)).
Proof. apply (mk_sine_wf_amplitude 5 0 2 44100 3). lra. Defined.

(** X5.  Normalisation, in exact real arithmetic.  For real frequencies and
    as many non-negative weights of positive sum, and a non-zero sample
    rate, every sample of the mix is finite and lies in [[-1, 1]]. *)
Theorem freq_based_stationary_wf_amplitude
    (freqs ws : list R) (sr : R) (n : Z) :
  freqs <> [] ->
  length freqs = length ws ->
  sr <> 0 ->
  Forall (fun w => 0 <= w) ws ->
  0 < Rsum ws ->
  exists wf : ndarray,
    freq_based_stationary_wf (map Fin freqs) (Some (map Fin ws)) n (Fin sr)
    = Ok (Array wf)
    /\ Forall (within 1) wf.
Proof.
  intros Hne Hlen Hsr Hws Hpos.
  exists (Spec.generateMix (map Fin freqs) (map Fin ws) n (Fin sr)). split.
  - now apply freq_based_stationary_wf_Fin.
  - rewrite generateMix_sample by (try assumption; lra).
    apply Forall_map, Forall_forall. intros i _.
    eexists. split; [reflexivity |]. now apply mix_sample_bound.
Qed.

Lemma freq_based_stationary_wf_amplitude_witness :
  exists wf : ndarray,
    freq_based_stationary_wf (map Fin [200; 400]) (Some (map Fin [1; 3])) 3
      (Fin 44100)
    = Ok (Array wf)
    /\ Forall (within 1) wf.
Proof.
  apply (freq_based_stationary_wf_amplitude [200; 400] [1; 3] 44100 3).
  - discriminate.
  - reflexivity.
  - lra.
  - repeat constructor; lra.
  - unfold Rsum. simpl. lra.
Defined.

(** ** Special mixes *)

Lemma mix_numerator_0 (sr : R) (freqs : list R) :
  forall ws : list R, mix_numerator freqs ws sr 0 = 0.
Proof.
  induction freqs as [| f freqs IH]; intros [| w ws]; cbn [mix_numerator];
    try reflexivity.
  rewrite IH. cbn [INR].
  replace (0 * (2 * PI) * f / sr) with 0 by (unfold Rdiv; ring).
  rewrite sin_0. ring.
Qed.

Lemma mix_numerator_unison (sr f : R) (i : nat) (ws : list R) :
  mix_numerator (repeat f (length ws)) ws sr i
  = sin (INR i * (2 * PI) * f / sr) * Rsum ws.
Proof.
  induction ws as [| w ws IH]; cbn [length repeat mix_numerator].
  - unfold Rsum. simpl. ring.
  - rewrite IH. change (Rsum (w :: ws)) with (w + Rsum ws). ring.
Qed.

(** X6.  In exact real arithmetic: for real frequencies and weights, a
    non-zero total weight and a non-zero sample rate, the first sample of a
    mix of at least one sample is 0. *)
Theorem freq_based_stationary_wf_starts_at_0
    (freqs ws : list R) (sr : R) (n : Z) :
  freqs <> [] ->
  length freqs = length ws ->
  sr <> 0 ->
  Rsum ws <> 0 ->
  (0 < n)%Z ->
  exists wf : ndarray,
    freq_based_stationary_wf (map Fin freqs) (Some (map Fin ws)) n (Fin sr)
    = Ok (Array wf)
    /\ nth_error wf 0 = Some (Fin 0).
Proof.
  intros Hne Hlen Hsr Hw Hn.
  exists (Spec.generateMix (map Fin freqs) (map Fin ws) n (Fin sr)). split.
  - now apply freq_based_stationary_wf_Fin.
  - rewrite generateMix_sample by assumption.
    rewrite nth_error_map, nth_error_seq.
    replace (0 <? Z.to_nat n)%nat with true
      by (symmetry; apply Nat.ltb_lt; lia).
    cbn [option_map Nat.add]. unfold mix_sample.
    rewrite mix_numerator_0. do 2 f_equal. field. assumption.
Qed.

Lemma freq_based_stationary_wf_starts_at_0_witness :
  exists wf : ndarray,
    freq_based_stationary_wf (map Fin [200; 400; 600; 800])
      (Some (map Fin [1; 2; 3; 4])) 3 (Fin 44100)
    = Ok (Array wf)
    /\ nth_error wf 0 = Some (Fin 0).
Proof.
  apply (freq_based_stationary_wf_starts_at_0
           [200; 400; 600; 800] [1; 2; 3; 4] 44100 3).
  - discriminate.
  - reflexivity.
  - lra.
  - unfold Rsum. simpl. lra.
  - lia.
Defined.

(** X7.  Unison.  Mixing one real frequency with itself, under any real
    weights of non-zero sum, returns the sine waveform of that frequency
    with the default phase and gain. *)
Theorem freq_based_stationary_wf_unison (f sr : R) (ws : list R) (n : Z) :
  ws <> [] ->
  sr <> 0 ->
  Rsum ws <> 0 ->
  freq_based_stationary_wf (map Fin (repeat f (length ws)))
    (Some (map Fin ws)) n (Fin sr)
  = Ok (Array (mk_sine_wf (Fin f) n (Fin sr) dflt_phase dflt_gain)).
Proof.
  intros Hne Hsr Hw.
  rewrite freq_based_stationary_wf_Fin.
  - do 2 f_equal. rewrite generateMix_sample by assumption.
    unfold dflt_phase, dflt_gain, of_int. rewrite unit_sine_Fin by assumption.
    apply map_ext. intros i. unfold mix_sample.
    rewrite mix_numerator_unison. f_equal. field. assumption.
  - destruct ws; [contradiction | discriminate].
  - apply repeat_length.
Qed.

Lemma freq_based_stationary_wf_unison_witness :
  freq_based_stationary_wf (map Fin (repeat 440 (length [1; 3])))
    (Some (map Fin [1; 3])) 3 (Fin 44100)
  = Ok (Array (mk_sine_wf (Fin 440) 3 (Fin 44100) dflt_phase dflt_gain)).
Proof.
  apply (freq_based_stationary_wf_unison 440 44100 [1; 3] 3).
  - discriminate.
  - lra.
  - unfold Rsum. simpl. lra.
Defined.

(** X8.  In exact real arithmetic, a frequency of weight 0 is silent: for
    real inputs and a non-zero sample rate, putting a frequency of weight 0
    in front of a non-empty mix does not change the waveform returned. *)
Theorem freq_based_stationary_wf_zero_weight
    (f : R) (freqs ws : list R) (sr : R) (n : Z) :
  freqs <> [] ->
  length freqs = length ws ->
  sr <> 0 ->
  exists wf : ndarray,
    freq_based_stationary_wf (map Fin freqs) (Some (map Fin ws)) n (Fin sr)
    = Ok (Array wf)
    /\ freq_based_stationary_wf (map Fin (f :: freqs))
         (Some (map Fin (0 :: ws))) n (Fin sr)
       = Ok (Array wf).
Proof.
  intros Hne Hlen Hsr.
  exists (Spec.generateMix (map Fin freqs) (map Fin ws) n (Fin sr)). split.
  - now apply freq_based_stationary_wf_Fin.
  - rewrite freq_based_stationary_wf_Fin;
      [| discriminate | cbn [length]; now rewrite Hlen].
    do 2 f_equal. rewrite !generateMix_Fin by assumption.
    apply map_ext. intros i. cbn [mix_numerator].
    change (Rsum (0 :: ws)) with (0 + Rsum ws).
    now rewrite Rmult_0_r, !Rplus_0_l.
Qed.

Lemma freq_based_stationary_wf_zero_weight_witness :
  exists wf : ndarray,
    freq_based_stationary_wf (map Fin [200; 400]) (Some (map Fin [1; 3])) 3
      (Fin 44100)
    = Ok (Array wf)
    /\ freq_based_stationary_wf (map Fin [600; 200; 400])
         (Some (map Fin [0; 1; 3])) 3 (Fin 44100)
       = Ok (Array wf).
Proof.
  apply (freq_based_stationary_wf_zero_weight 600 [200; 400] [1; 3] 44100 3).
  - discriminate.
  - reflexivity.
  - lra.
Defined.

(** ** Order of the frequencies *)

Lemma fold_right_Permutation {A : Type} (op : A -> A -> A) (e : A) :
  (forall x y z, op x (op y z) = op (op x y) z) ->
  (forall x y, op x y = op y x) ->
  forall l l' : list A,
    Permutation l l' -> fold_right op e l = fold_right op e l'.
Proof.
  intros Hassoc Hcomm l l' H.
  induction H as [| x l l' _ IH | x y l | l l' l'' _ IH1 _ IH2]; simpl.
  - reflexivity.
  - now rewrite IH.
  - now rewrite !Hassoc, (Hcomm y x).
  - now rewrite IH1.
Qed.

Lemma weighted_combine (g : num -> ndarray) (freqs : list num) :
  forall ws : list num,
    Spec.weighted (map g freqs) ws
    = map (fun fw => Spec.wf_scale (snd fw) (g (fst fw))) (combine freqs ws).
Proof.
  induction freqs as [| f freqs IH]; intros [| w ws];
    cbn [map combine Spec.weighted fst snd]; try reflexivity.
  now rewrite IH.
Qed.

Lemma snd_combine {A B : Type} (l : list A) :
  forall l' : list B, length l = length l' -> map snd (combine l l') = l'.
Proof.
  induction l as [| x l IH]; intros [| y l'] H; simpl in *;
    try reflexivity; try discriminate.
  f_equal. apply IH. now injection H.
Qed.

Lemma generateMix_Permutation
    (freqs ws freqs' ws' : list num) (n : Z) (sr : num) :
  length freqs = length ws ->
  length freqs' = length ws' ->
  Permutation (combine freqs ws) (combine freqs' ws') ->
  Spec.generateMix freqs ws n sr = Spec.generateMix freqs' ws' n sr.
Proof.
  intros Hlen Hlen' Hperm. unfold Spec.generateMix, Spec.sines.
  rewrite !weighted_combine.
  assert (Htotal : Spec.total ws = Spec.total ws').
  { rewrite <- (snd_combine freqs ws Hlen), <- (snd_combine freqs' ws' Hlen').
    unfold Spec.total.
    apply fold_right_Permutation;
      [apply num_add_assoc | apply num_add_comm | now apply Permutation_map]. }
  rewrite Htotal. f_equal. unfold Spec.wf_sum.
  apply fold_right_Permutation;
    [apply wf_add_assoc | apply wf_add_comm | now apply Permutation_map].
Qed.

(** X9.  The order of the frequencies does not matter: two non-empty lists
    of (frequency, weight) pairs that are permutations of each other give
    the same waveform (in exact arithmetic). *)
Theorem freq_based_stationary_wf_Permutation
    (freqs ws freqs' ws' : list num) (n : Z) (sr : num) :
  freqs <> [] ->
  length freqs = length ws ->
  length freqs' = length ws' ->
  Permutation (combine freqs ws) (combine freqs' ws') ->
  exists wf : ndarray,
    freq_based_stationary_wf freqs (Some ws) n sr = Ok (Array wf)
    /\ freq_based_stationary_wf freqs' (Some ws') n sr = Ok (Array wf).
Proof.
  intros Hne Hlen Hlen' Hperm.
  exists (Spec.generateMix freqs ws n sr). split.
  - now apply freq_based_stationary_wf_eval.
  - rewrite (generateMix_Permutation freqs ws freqs' ws') by assumption.
    apply freq_based_stationary_wf_eval; [| assumption].
    apply Permutation_length in Hperm.
    rewrite !length_combine, <- Hlen, <- Hlen', !Nat.min_id in Hperm.
    destruct freqs; [contradiction |]. destruct freqs'; discriminate.
Qed.

Lemma freq_based_stationary_wf_Permutation_witness :
  exists wf : ndarray,
    freq_based_stationary_wf [of_int 200; of_int 400]
      (Some [of_int 1; of_int 3]) 3 (of_int 44100)
    = Ok (Array wf)
    /\ freq_based_stationary_wf [of_int 400; of_int 200]
         (Some [of_int 3; of_int 1]) 3 (of_int 44100)
       = Ok (Array wf).
Proof.
  apply (freq_based_stationary_wf_Permutation
           [of_int 200; of_int 400] [of_int 1; of_int 3]
           [of_int 400; of_int 200] [of_int 3; of_int 1]).
  - discriminate.
  - reflexivity.
  - reflexivity.
  - simpl. apply perm_swap.
Defined.

(** ** Shorter and longer waveforms *)












(** ** A sample rate of 0 *)







(** ** Frequencies beyond the sample rate, and continuing a waveform *)

Lemma sin_period_Z (x : R) (k : Z) : sin (x + 2 * IZR k * PI) = sin x.
Proof.
  destruct (Z_le_gt_dec 0 k) as [Hk | Hk].
  - rewrite <- (Z2Nat.id k Hk), <- INR_IZR_INZ. apply sin_period.
  - rewrite <- (sin_period (x + 2 * IZR k * PI) (Z.to_nat (- k))).
    f_equal. rewrite INR_IZR_INZ, Z2Nat.id, opp_IZR by lia. ring.
Qed.

Lemma seq_offset (k len : nat) :
  seq k len = map (fun i => (k + i)%nat) (seq 0 len).
Proof.
  revert k. induction len as [| len IH]; intros k; cbn [seq map].
  - reflexivity.
  - rewrite Nat.add_0_r. f_equal.
    rewrite <- (seq_shift len 0), map_map, (IH (S k)).
    apply map_ext. intros i. lia.
Qed.

(** X14.  Aliasing.  For real arguments and a non-zero sample rate, adding
    a whole multiple of the sample rate to the frequency gives the same
    waveform (in exact arithmetic). *)
Theorem mk_sine_wf_alias (freq phase gain sr : R) (k n : Z) :
  sr <> 0 ->
  mk_sine_wf (Fin (freq + IZR k * sr)) n (Fin sr) (Fin phase) (Fin gain)
  = mk_sine_wf (Fin freq) n (Fin sr) (Fin phase) (Fin gain).
Proof.
  intros Hsr. rewrite !mk_sine_wf_Fin by assumption.
  apply map_ext. intros i. do 2 f_equal.
  rewrite <- (sin_period_Z (phase + INR i * 2 * PI * freq / sr)
                           (Z.of_nat i * k)).
  f_equal. rewrite mult_IZR, <- INR_IZR_INZ. field. assumption.
Qed.

Lemma mk_sine_wf_alias_witness :
  mk_sine_wf (Fin (5 + IZR 1 * 44100)) 3 (Fin 44100) (Fin 0) (Fin 1)
  = mk_sine_wf (Fin 5) 3 (Fin 44100) (Fin 0) (Fin 1).
Proof. apply (mk_sine_wf_alias 5 0 1 44100 1 3). lra. Defined.

(** X15.  Continuation.  For real arguments and a non-zero sample rate,
    what is left of a waveform of [n] samples after its first [k] is the
    waveform of [n - k] samples whose phase is advanced by
    [k * 2 pi * freq / sr] (in exact arithmetic). *)
Theorem mk_sine_wf_continuation (freq phase gain sr : R) (k n : Z) :
  sr <> 0 ->
  (0 <= k <= n)%Z ->
  skipn (Z.to_nat k)
        (mk_sine_wf (Fin freq) n (Fin sr) (Fin phase) (Fin gain))
  = mk_sine_wf (Fin freq) (n - k) (Fin sr)
      (Fin (phase + IZR k * (2 * PI) * freq / sr)) (Fin gain).
Proof.
  intros Hsr [Hk Hkn]. rewrite !mk_sine_wf_Fin by assumption.
  rewrite skipn_map, skipn_seq, Z2Nat.inj_sub by assumption.
  cbn [Nat.add]. rewrite seq_offset, map_map.
  apply map_ext. intros i. do 3 f_equal.
  rewrite plus_INR, (INR_IZR_INZ (Z.to_nat k)), Z2Nat.id by assumption.
  field. assumption.
Qed.

Lemma mk_sine_wf_continuation_witness :
  skipn (Z.to_nat 1) (mk_sine_wf (Fin 5) 3 (Fin 44100) (Fin 0) (Fin 1))
  = mk_sine_wf (Fin 5) (3 - 1) (Fin 44100)
      (Fin (0 + IZR 1 * (2 * PI) * 5 / 44100)) (Fin 1).
Proof. apply (mk_sine_wf_continuation 5 0 1 44100 1 3); [lra | lia]. Defined.

(** ** Weights beyond the doubles *)

Section X16_float64.
Import PrimFloat.

(** X16.  Int weights are summed exactly, and the sum is converted to a
    double only for the final division: on a non-empty list of frequencies
    with as many weights, each number a double or an int within the range
    of the doubles, and at least one sample, when [sum(weights)] is an int
    beyond the range of the doubles the call raises [OverflowError]. *)
Theorem f64_weight_sum_overflow (P : F64.platform)
    (freqs ws : list F64.pynum) (n : Z) (sr s : F64.pynum) :
  freqs <> [] ->
  length freqs = length ws ->
  (0 < n)%Z ->
  (n <= F64.max_len P)%Z ->
  (n < 2 ^ 60)%Z ->
  Forall (fun f => F64.fits f = true) freqs ->
  F64.fits sr = true ->
  Forall (fun w => F64.fits w = true) ws ->
  F64.py_sum ws = F64.Ok s ->
  F64.fits s = false ->
  F64.freq_based_stationary_wf P freqs (Some ws) n sr
  = F64.Raise F64.OverflowError.
Proof.
  intros Hne Hlen _ Hmax Hn Hfs Hsr Hws Hsum Hs.
  unfold F64.freq_based_stationary_wf.
  rewrite Hlen, Nat.eqb_refl. cbn [negb].
  destruct (f64_sum_weighted_enumerate
              (fun freq => F64.mk_sine_wf P freq n sr (F64.PyInt 0)
                             (F64.PyInt 1))
              (Z.to_nat n) freqs ws Hne Hlen) as [c [Hc _]].
  - now apply f64_mk_sine_wf_yields.
  - assumption.
  - rewrite Hc, Hsum. cbn [F64.bind F64.value_div].
    unfold F64.to_float. now rewrite Hs.
Qed.

Lemma f64_weight_sum_overflow_witness :
  F64.freq_based_stationary_wf F64.docstring_platform
    [F64.PyInt 5; F64.PyInt 5]
    (Some [F64.PyInt (10 ^ 308); F64.PyInt (10 ^ 308)]) 3 (F64.PyInt 44100)
  = F64.Raise F64.OverflowError.
Proof.
  apply (f64_weight_sum_overflow F64.docstring_platform
           [F64.PyInt 5; F64.PyInt 5]
           [F64.PyInt (10 ^ 308); F64.PyInt (10 ^ 308)]
           3 (F64.PyInt 44100) (F64.PyInt (2 * 10 ^ 308))).
  - discriminate.
  - reflexivity.
  - reflexivity.
  - vm_compute. discriminate.
  - reflexivity.
  - repeat constructor.
  - reflexivity.
  - repeat constructor.
  - vm_compute. reflexivity.
  - vm_compute. reflexivity.
Defined.
End X16_float64.

(** ** The first sample, on doubles *)

Section F64_zero.
Import PrimFloat.











End F64_zero.
